(** * rate-limit-ai: the Lambda rate limiter of [lambda_function.py]

    A shallow embedding of [get_rate_limit_info], [update_rate_limit_info]
    and [lambda_handler], over an explicit model of the two DynamoDB tables
    the module talks to, the wall clock, the logger and the exceptions that
    the store client may raise. *)

From Stdlib Require Import ZArith String List Lia.
From stdpp Require Import gmap strings list fin_maps.

Local Open Scope string_scope.
Local Open Scope Z_scope.
Local Open Scope list_scope.

(** ** Python values and exceptions *)

Module Py.

(** The values that flow through the handler: [None], booleans, integers,
    strings, lists and dicts. *)
#[local] Set Warnings "-register-all".
Inductive pyval :=
  | VNone
  | VBool (b : bool)
  | VInt (n : Z)
  | VStr (s : string)
  | VList (vs : list pyval)
  | VDict (kvs : list (string * pyval)).
#[local] Set Warnings "register-all".

(** Truth value testing, as used by [not x]. *)
Definition truthy (v : pyval) : bool :=
  match v with
  | VNone => false
  | VBool b => b
  | VInt n => negb (Z.eqb n 0)
  | VStr s => negb (String.eqb s "")
  | VList vs => match vs with [] => false | _ :: _ => true end
  | VDict kvs => match kvs with [] => false | _ :: _ => true end
  end.

(** [d.get(k)]: the value stored under [k], [None] when the key is absent. *)
Definition dict_get (d : gmap string pyval) (k : string) : pyval :=
  default VNone (d !! k).

(** Instances of [Exception].  [ClientError] is botocore's, carrying the
    service error code; [LambdaError] is the class imported from [utils],
    built as [LambdaError(status_code, message)] (or one of its subclasses,
    whose name is [type_name]); every other instance of [Exception] is an
    [OtherException].  The text is what [str(e)] gives. *)
Inductive exc :=
  | ClientError (code text : string)
  | LambdaError (type_name : string) (status_code : Z) (message : string)
  | OtherException (type_name text : string).

Definition str (e : exc) : string :=
  match e with
  | ClientError _ t => t
  | LambdaError _ _ m => m
  | OtherException _ t => t
  end.

(** [type(e).__name__] *)
Definition type_name (e : exc) : string :=
  match e with
  | ClientError _ _ => "ClientError"
  | LambdaError n _ _ => n
  | OtherException n _ => n
  end.

(** The classes named in [except] clauses. *)
Definition isinstance_Exception (e : exc) : bool := true.

Definition isinstance_ClientError (e : exc) : bool :=
  match e with ClientError _ _ => true | _ => false end.

Definition isinstance_LambdaError (e : exc) : bool :=
  match e with LambdaError _ _ _ => true | _ => false end.

(** What a call gives back: a value, or a raised exception. *)
Inductive res (A : Type) :=
  | Ok (a : A)
  | Raise (e : exc).
Arguments Ok {A} a.
Arguments Raise {A} e.

End Py.
Import Py.

(** ** The outside world: tables, clock, logger *)

(** A DynamoDB attribute value: a string (S) or a number (N). *)
Inductive attr :=
  | AStr (s : string)
  | ANum (n : Z).

(** An item maps attribute names to values; a table maps the value of the
    partition key to the item. *)
Abbreviation item := (gmap string attr).
Abbreviation table := (gmap string item).

Inductive table_id :=
  | RL_AI     (* table = dynamodb.Table("RL_AI"), key associated_account *)
  | Users.    (* user_table = dynamodb.Table("Users"), key id *)

Definition key_attr (t : table_id) : string :=
  match t with
  | RL_AI => "associated_account"
  | Users => "id"
  end.

(** A request sent to the store: the operation, the table and the [Key]
    (for [put_item], the [Item]) it was called with. *)
Inductive operation :=
  | GetItem
  | UpdateItem
  | PutItem.

Record store_call := mkCall {
  call_op : operation;
  call_table : table_id;
  call_arg : item
}.

Inductive log_record :=
  | LogInfo (msg : string)
  | LogError (msg : string).

Definition log_msg (r : log_record) : string :=
  match r with LogInfo m => m | LogError m => m end.

(** The state a call runs against.  [faults] schedules the I/O outcome of the
    coming store requests, in order: [Some e] makes the request raise [e]
    without touching the table, [None] (or an exhausted schedule) lets it go
    through.  [calls] and [logs] record the requests issued and the log
    records emitted, oldest first.  [clock] is the reading [int(time.time())],
    in whole seconds. *)
Record World := mkWorld {
  rl_table : table;
  user_table : table;
  clock : Z;
  faults : list (option exc);
  calls : list store_call;
  logs : list log_record
}.

Definition get_table (t : table_id) (w : World) : table :=
  match t with
  | RL_AI => rl_table w
  | Users => user_table w
  end.

Definition set_table (t : table_id) (m : table) (w : World) : World :=
  match t with
  | RL_AI => mkWorld m (user_table w) (clock w) (faults w) (calls w) (logs w)
  | Users => mkWorld (rl_table w) m (clock w) (faults w) (calls w) (logs w)
  end.

(** ** Computations that read and write the world and may raise *)

Definition M (A : Type) : Type := World -> res A * World.

Definition ret {A} (a : A) : M A := fun w => (Ok a, w).

Definition throw {A} (e : exc) : M A := fun w => (Raise e, w).

Definition bind {A B} (m : M A) (k : A -> M B) : M B :=
  fun w =>
    match m w with
    | (Ok a, w') => k a w'
    | (Raise e, w') => (Raise e, w')
    end.

Declare Scope py_scope.
Delimit Scope py_scope with py.
Notation "x <~ m ';;' k" := (bind m (fun x => k))
  (at level 100, m at next level, right associativity) : py_scope.
Notation "m ';;;' k" := (bind m (fun _ => k))
  (at level 100, right associativity) : py_scope.

(** [try: body except C1 as e: h1 except C2 as e: h2 ...]: the clauses are
    tried in order and the first whose class matches the exception runs; an
    exception that matches none propagates. *)
Definition handler (A : Type) : Type := ((exc -> bool) * (exc -> M A))%type.

Fixpoint dispatch {A} (hs : list (handler A)) (e : exc) : M A :=
  match hs with
  | [] => throw e
  | (cls, h) :: hs' => if cls e then h e else dispatch hs' e
  end.

Definition try_except {A} (body : M A) (hs : list (handler A)) : M A :=
  fun w =>
    match body w with
    | (Ok a, w') => (Ok a, w')
    | (Raise e, w') => dispatch hs e w'
    end.

(** [logger.info], [logger.error] and [int(time.time())]. *)
Definition logger_info (msg : string) : M unit :=
  fun w => (Ok tt, mkWorld (rl_table w) (user_table w) (clock w) (faults w)
                           (calls w) (logs w ++ [LogInfo msg])).

Definition logger_error (msg : string) : M unit :=
  fun w => (Ok tt, mkWorld (rl_table w) (user_table w) (clock w) (faults w)
                           (calls w) (logs w ++ [LogError msg])).

Definition time_int : M Z := fun w => (Ok (clock w), w).

(** ** The store client

    The three boto3 [Table] methods the module calls, with DynamoDB's
    semantics: [get_item] is a point read; [put_item] writes the item,
    replacing any item with the same key; [update_item], called without a
    [ConditionExpression], edits the item with the given key and creates that
    item first when the table has none. *)

Module DynamoDB.

(** The fragment of the update-expression language used by the module. *)
Inductive operand :=
  | Path (name : string)
  | Value (placeholder : string)
  | IfNotExists (name : string) (dflt : operand)
  | Plus (a b : operand).

Inductive update_expression :=
  | SET (name : string) (v : operand).

Fixpoint eval_operand (values : item) (it : item) (o : operand) : option attr :=
  match o with
  | Path name => it !! name
  | Value placeholder => values !! placeholder
  | IfNotExists name dflt =>
      match it !! name with
      | Some v => Some v
      | None => eval_operand values it dflt
      end
  | Plus a b =>
      match eval_operand values it a, eval_operand values it b with
      | Some (ANum x), Some (ANum y) => Some (ANum (x + y))
      | _, _ => None
      end
  end.

Definition apply_update (values : item) (ue : update_expression) (it : item)
  : option item :=
  match ue with
  | SET name v =>
      match eval_operand values it v with
      | Some a => Some (<[name := a]> it)
      | None => None
      end
  end.

Definition ValidationException : exc :=
  ClientError "ValidationException" "An error occurred (ValidationException)".

(** Sending a request: it is recorded and consumes the next scheduled
    outcome, which decides whether it raises before reaching the table. *)
Definition next_outcome (w : World) : option exc :=
  match faults w with
  | Some e :: _ => Some e
  | _ => None
  end.

Definition sent (c : store_call) (w : World) : World :=
  mkWorld (rl_table w) (user_table w) (clock w) (tail (faults w))
          (calls w ++ [c]) (logs w).

Definition request (op : operation) (t : table_id) (arg : item) : M unit :=
  fun w =>
    match next_outcome w with
    | Some e => (Raise e, sent (mkCall op t arg) w)
    | None => (Ok tt, sent (mkCall op t arg) w)
    end.

(** The partition key value named by a [Key] or [Item] argument. *)
Definition key_of (t : table_id) (arg : item) : option string :=
  match arg !! key_attr t with
  | Some (AStr k) => Some k
  | _ => None
  end.

(** [response = t.get_item(Key=...)]; the result is [response.get('Item')]. *)
Definition get_item (t : table_id) (Key : item) : M (option item) :=
  (request GetItem t Key ;;;
   fun w =>
     match key_of t Key with
     | Some k => (Ok (get_table t w !! k), w)
     | None => (Raise ValidationException, w)
     end)%py.

Definition put_item (t : table_id) (Item : item) : M unit :=
  (request PutItem t Item ;;;
   fun w =>
     match key_of t Item with
     | Some k => (Ok tt, set_table t (<[k := Item]> (get_table t w)) w)
     | None => (Raise ValidationException, w)
     end)%py.

Definition update_item (t : table_id) (Key : item)
    (UpdateExpression : update_expression) (ExpressionAttributeValues : item)
  : M unit :=
  (request UpdateItem t Key ;;;
   fun w =>
     match key_of t Key with
     | Some k =>
         let old := default Key (get_table t w !! k) in
         match apply_update ExpressionAttributeValues UpdateExpression old with
         | Some new => (Ok tt, set_table t (<[k := new]> (get_table t w)) w)
         | None => (Raise ValidationException, w)
         end
     | None => (Raise ValidationException, w)
     end)%py.

End DynamoDB.
Import DynamoDB.

(** ** [lambda_function.py] *)

Section RateLimit.

(** [TTL_S = int(os.environ.get('TTL_S', '60'))] *)
Variable TTL_S : Z.

Definition get_rate_limit_info (client_id : string) : M item :=
  try_except
    (response <~ get_item Users {[ "id" := AStr client_id ]} ;;
     ret (default ∅ response))%py
    [ (isinstance_ClientError, fun e =>
         logger_error ("Error retrieving rate limit info: " +:+ str e) ;;;
         throw e)%py ].

Definition update_rate_limit_info (client_id : string) : M pyval :=
  try_except
    (now <~ time_int ;;
     let ttl_timestamp := now + TTL_S in
     try_except
       (update_item RL_AI
          {[ "associated_account" := AStr client_id ]}
          (SET "invocations"
             (Plus (IfNotExists "invocations" (Value ":zero")) (Value ":inc")))
          {[ ":inc" := ANum 1; ":zero" := ANum 1 ]})
       [ (isinstance_Exception, fun e =>
            logger_info ("Creating new rate limit record for " +:+ client_id) ;;;
            try_except
              (put_item RL_AI
                 {[ "associated_account" := AStr client_id;
                    "invocations" := ANum 1;
                    "ttl" := ANum ttl_timestamp ]})
              [ (isinstance_Exception, fun e =>
                   logger_error ("Error creating rate limit record: " +:+ str e) ;;;
                   throw e) ]);
         (isinstance_Exception, fun e =>
            logger_error ("Error updating rate limit record: " +:+ str e) ;;;
            throw e) ] ;;;
     ret VNone)%py
    [ (isinstance_Exception, fun e =>
         logger_error ("Error updating rate limit info: " +:+ str e) ;;;
         throw e)%py ].

End RateLimit.


Section Handler.

(** What [lambda_handler] imports from [utils], [config] and
    [rate_limit_logic], which this module does not define: they are taken as
    given.  [parse_event] extracts a dict from the event or raises, and does
    not touch the store; [create_response] builds the response from a status
    code and a body; [process_rate_limit_request] is the engine, which reads
    and writes the world and may raise. *)
Context {Event Context_ Response AuthBP : Type}.
Variable parse_event : Event -> res (gmap string pyval).
Variable create_response : Z -> pyval -> Response.
Variable process_rate_limit_request : pyval -> pyval -> AuthBP -> M pyval.
Variable AUTH_BP : AuthBP.

(** [e.status_code] and [e.message] of a [LambdaError]; the other classes
    never reach the clause that reads them. *)
Definition status_code_of (e : exc) : Z :=
  match e with LambdaError _ c _ => c | _ => 500 end.

Definition message_of (e : exc) : string :=
  match e with LambdaError _ _ m => m | _ => str e end.

Definition lambda_handler (event : Event) (context : Context_) : M Response :=
  try_except
    (parsed_event <~ (fun w => (parse_event event, w)) ;;
     let client_id := dict_get parsed_event "client_id" in
     let session_id := dict_get parsed_event "session" in
     (if negb (truthy client_id) || negb (truthy session_id)
      then throw (LambdaError "LambdaError" 400
             "Missing required fields: client_id and session are required.")
      else ret tt) ;;;
     result <~ process_rate_limit_request client_id session_id AUTH_BP ;;
     ret (create_response 200 result))%py
    [ (isinstance_LambdaError, fun e =>
         ret (create_response (status_code_of e)
                (VDict [ ("message", VStr (message_of e));
                         ("error", VStr (type_name e)) ])));
      (isinstance_Exception, fun e =>
         logger_error ("An unexpected error occurred: " +:+ str e) ;;;
         ret (create_response 500
                (VDict [ ("message", VStr "An internal server error occurred.") ])))%py ].

End Handler.

(** ** Observations on a world *)

(** The attribute [name] of the rate-limit record of [client_id], if any. *)
Definition stored_attr (w : World) (client_id name : string) : option attr :=
  rl_table w !! client_id ≫= (.!! name).



(** The log record that only the second [except] clause of the update call
    emits. *)
Definition from_second_handler (r : log_record) : bool :=
  String.prefix "Error updating rate limit record" (log_msg r).

(** A field of the parsed event that is absent, [None], empty, or falsy in
    any other way: what [not x] accepts. *)
Definition field_missing (d : gmap string pyval) (k : string) : Prop :=
  truthy (dict_get d k) = false.

(** The arguments of the requests [update_rate_limit_info] sends. *)
Definition the_key (client_id : string) : item :=
  {[ "associated_account" := AStr client_id ]}.

Definition new_record (client_id : string) (ttl_timestamp : Z) : item :=
  {[ "associated_account" := AStr client_id;
     "invocations" := ANum 1;
     "ttl" := ANum ttl_timestamp ]}.

(** ** The paths of [update_rate_limit_info], spelled out *)

(** The update request of the module, as [update_rate_limit_info] sends it. *)
Definition increment (client_id : string) : M unit :=
  update_item RL_AI (the_key client_id)
    (SET "invocations"
       (Plus (IfNotExists "invocations" (Value ":zero")) (Value ":inc")))
    {[ ":inc" := ANum 1; ":zero" := ANum 1 ]}.

(** What the update expression of the module computes on an item: the
    counter plus one, and [:zero] plus one, that is 2, when the item has no
    counter yet. *)
Definition bumped (it : item) : option item :=
  match it !! "invocations" with
  | None => Some (<["invocations" := ANum 2]> it)
  | Some (ANum n) => Some (<["invocations" := ANum (n + 1)]> it)
  | Some (AStr _) => None
  end.

Definition add_log (r : log_record) (w : World) : World :=
  mkWorld (rl_table w) (user_table w) (clock w) (faults w) (calls w)
          (logs w ++ [r]).

(** The first [except] clause of the update call, run in the world [w1] the
    failed update left: the log record, then the [put_item] request. *)
Definition create_path (TTL_S : Z) (client_id : string) (w1 : World)
  : res pyval * World :=
  let Item := new_record client_id (clock w1 + TTL_S) in
  let w2 := add_log (LogInfo ("Creating new rate limit record for " +:+ client_id)) w1 in
  let w3 := sent (mkCall PutItem RL_AI Item) w2 in
  match next_outcome w2 with
  | None => (Ok VNone, set_table RL_AI (<[client_id := Item]> (rl_table w3)) w3)
  | Some e =>
      (Raise e,
       add_log (LogError ("Error updating rate limit info: " +:+ str e))
         (add_log (LogError ("Error creating rate limit record: " +:+ str e)) w3))
  end.

(** ** Worlds used as concrete inputs *)

Definition throttled : exc :=
  ClientError "ProvisionedThroughputExceededException"
    "An error occurred (ProvisionedThroughputExceededException)".

Definition already_there : exc :=
  ClientError "ConditionalCheckFailedException"
    "An error occurred (ConditionalCheckFailedException)".

(** An empty store, no fault scheduled, clock at 1000. *)
Definition w_fresh : World := mkWorld ∅ ∅ 1000 [] [] [].

(** A record for "A" in its window: 5 invocations, expiring at 1030. *)
Definition record_A : item :=
  {[ "associated_account" := AStr "A";
     "invocations" := ANum 5;
     "ttl" := ANum 1030 ]}.

Definition w_live : World := mkWorld {[ "A" := record_A ]} ∅ 1000 [] [] [].

(** The same store, with the coming request throttled. *)
Definition w_throttled : World :=
  mkWorld {[ "A" := record_A ]} ∅ 1000 [Some throttled] [] [].

(** An empty store where the update and then the creation both fail. *)
Definition w_both_fail : World :=
  mkWorld ∅ ∅ 1000 [Some throttled; Some already_there] [] [].


(** A stand-in for the engine: it counts the request of a string key with
    [update_rate_limit_info] and answers with an empty dict. *)
Definition counting_engine (client_id session_id : pyval) (bp : unit) : M pyval :=
  match client_id with
  | VStr k => (update_rate_limit_info 60 k ;;; ret (VDict []))%py
  | _ => throw (OtherException "TypeError" "client_id must be a string")
  end.

(** Events that are already parsed, and responses kept as the pair of the
    status code and the body. *)
Definition parsed (event : gmap string pyval) : res (gmap string pyval) :=
  Ok event.

Definition no_client : gmap string pyval := {[ "session" := VStr "s-1" ]}.

Definition empty_session : gmap string pyval :=
  {[ "client_id" := VStr "A"; "session" := VStr "" ]}.

Definition well_formed : gmap string pyval :=
  {[ "client_id" := VStr "A"; "session" := VStr "s-1" ]}.

(** What the two [except] clauses of [lambda_handler] answer to an exception
    [e] raised in the world [w]. *)
Definition on_error {Response : Type} (create_response : Z -> pyval -> Response)
    (e : exc) (w : World) : res Response * World :=
  if isinstance_LambdaError e
  then (Ok (create_response (status_code_of e)
              (VDict [ ("message", VStr (message_of e));
                       ("error", VStr (type_name e)) ])), w)
  else (Ok (create_response 500
              (VDict [ ("message", VStr "An internal server error occurred.") ])),
        add_log (LogError ("An unexpected error occurred: " +:+ str e)) w).

(** The two bodies the handler answers errors with. *)
Definition missing_fields_body : pyval :=
  VDict [ ("message",
           VStr "Missing required fields: client_id and session are required.");
          ("error", VStr "LambdaError") ].

Definition internal_error_body : pyval :=
  VDict [ ("message", VStr "An internal server error occurred.") ].

(** ** Callers *)

(** [class RateLimitExceeded(Exception)]: a direct subclass of [Exception],
    raised with the text [str] gives back. *)
Definition RateLimitExceeded (text : string) : exc :=
  OtherException "RateLimitExceeded" text.

(** The clock moves on between two calls. *)
Definition set_clock (t : Z) (w : World) : World :=
  mkWorld (rl_table w) (user_table w) t (faults w) (calls w) (logs w).

(** A caller that calls [update_rate_limit_info] for the same client once at
    each of the clock readings [ts], in order, whatever the calls give: the
    results, oldest first, and the world they leave. *)
Fixpoint calls_at (TTL_S : Z) (client_id : string) (ts : list Z) (w : World)
  : list (res pyval) * World :=
  match ts with
  | [] => ([], w)
  | t :: ts' =>
      let (r, w1) := update_rate_limit_info TTL_S client_id (set_clock t w) in
      let (rs, w2) := calls_at TTL_S client_id ts' w1 in
      (r :: rs, w2)
  end.

(** No request to come is scheduled to raise. *)
Definition goes_through (o : option exc) : bool :=
  match o with None => true | Some _ => false end.

Definition fault_free (fs : list (option exc)) : bool := forallb goes_through fs.

(** A log record of level ERROR. *)
Definition is_error (r : log_record) : bool :=
  match r with LogError _ => true | LogInfo _ => false end.

(** An engine that refuses every request with a [LambdaError] of status 429,
    and one that signals the refusal with [RateLimitExceeded]. *)
Definition refusing_engine (client_id session_id : pyval) (bp : unit) : M pyval :=
  throw (LambdaError "LambdaError" 429 "Rate limit exceeded").

Definition exceeding_engine (client_id session_id : pyval) (bp : unit) : M pyval :=
  throw (RateLimitExceeded "Rate limit exceeded").

(** A parser that rejects every event. *)
Definition unparsable (event : gmap string pyval) : res (gmap string pyval) :=
  Raise (OtherException "JSONDecodeError" "Expecting value").

(** An account store with a record for "A". *)
Definition account_A : item := {[ "id" := AStr "A"; "plan" := AStr "pro" ]}.

Definition w_account : World := mkWorld ∅ {[ "A" := account_A ]} 1000 [] [] [].


(** * Properties *)

(** ** The store client *)

Lemma key_of_the_key client_id : key_of RL_AI (the_key client_id) = Some client_id.
Proof. unfold key_of, key_attr, the_key. by rewrite lookup_singleton_eq. Qed.

Lemma key_of_new_record client_id ttl :
  key_of RL_AI (new_record client_id ttl) = Some client_id.
Proof. unfold key_of, key_attr, new_record. by rewrite lookup_insert_eq. Qed.

Lemma new_record_invocations client_id ttl :
  new_record client_id ttl !! "invocations" = Some (ANum 1).
Proof.
  unfold new_record.
  rewrite lookup_insert_ne by done. by rewrite lookup_insert_eq.
Qed.

Lemma new_record_ttl client_id ttl :
  new_record client_id ttl !! "ttl" = Some (ANum ttl).
Proof.
  unfold new_record.
  do 2 (rewrite lookup_insert_ne by done). by rewrite lookup_singleton_eq.
Qed.

Lemma apply_update_bumped (it : item) :
  apply_update {[ ":inc" := ANum 1; ":zero" := ANum 1 ]}
    (SET "invocations"
       (Plus (IfNotExists "invocations" (Value ":zero")) (Value ":inc"))) it
  = bumped it.
Proof.
  unfold apply_update, bumped; cbn [eval_operand].
  replace (({[ ":inc" := ANum 1; ":zero" := ANum 1 ]} : item) !! ":zero")
    with (Some (ANum 1)) by (symmetry; by vm_compute).
  replace (({[ ":inc" := ANum 1; ":zero" := ANum 1 ]} : item) !! ":inc")
    with (Some (ANum 1)) by (symmetry; by vm_compute).
  destruct (it !! "invocations") as [[s|n]|]; reflexivity.
Qed.

Lemma bumped_ttl (it it' : item) :
  bumped it = Some it' -> it' !! "ttl" = it !! "ttl".
Proof.
  unfold bumped; intros H.
  destruct (it !! "invocations") as [[s|n]|]; simplify_eq;
    by rewrite lookup_insert_ne.
Qed.

Lemma bumped_invocations (it it' : item) :
  bumped it = Some it' -> exists n, it' !! "invocations" = Some (ANum n).
Proof.
  unfold bumped; intros H.
  destruct (it !! "invocations") as [[s|n]|]; simplify_eq;
    eexists; apply lookup_insert_eq.
Qed.

Lemma request_sends op t arg w :
  snd (request op t arg w) = sent (mkCall op t arg) w.
Proof. unfold request. by destruct (next_outcome w). Qed.

(** ** [update_rate_limit_info], path by path *)

Lemma update_rate_limit_info_eq TTL_S client_id w :
  update_rate_limit_info TTL_S client_id w =
  let w1 := sent (mkCall UpdateItem RL_AI (the_key client_id)) w in
  match next_outcome w with
  | Some e => create_path TTL_S client_id w1
  | None =>
      match bumped (default (the_key client_id) (rl_table w !! client_id)) with
      | Some new =>
          (Ok VNone, set_table RL_AI (<[client_id := new]> (rl_table w1)) w1)
      | None => create_path TTL_S client_id w1
      end
  end.
Proof.
  unfold update_rate_limit_info, create_path.
  unfold try_except at 1 2, bind at 1 2, time_int, update_item, bind at 1, request.
  fold (the_key client_id). fold (new_record client_id (clock w + TTL_S)).
  assert (Hcreate : forall e1 w1, clock w1 = clock w ->
    (let (r, w') :=
       let (r, w') :=
         dispatch
           [(isinstance_Exception, fun _ : exc =>
               (logger_info ("Creating new rate limit record for " +:+ client_id) ;;;
                try_except
                  (put_item RL_AI (new_record client_id (clock w + TTL_S)))
                  [(isinstance_Exception, fun e0 : exc =>
                      logger_error ("Error creating rate limit record: " +:+ str e0) ;;;
                      throw e0)])%py);
            (isinstance_Exception, fun e0 : exc =>
               (logger_error ("Error updating rate limit record: " +:+ str e0) ;;;
                throw e0)%py)]
           e1 w1 in
       match r with
       | Ok _ => ret VNone w'
       | Raise e => (Raise e, w')
       end in
     match r with
     | Ok a => (Ok a, w')
     | Raise e =>
         dispatch
           [(isinstance_Exception, fun e0 : exc =>
               (logger_error ("Error updating rate limit info: " +:+ str e0) ;;;
                throw e0)%py)] e w'
     end) = create_path TTL_S client_id w1).
  { intros e1 w1 Hclock. unfold create_path. rewrite Hclock.
    cbn [dispatch isinstance_Exception].
    unfold bind at 1, logger_info, try_except, put_item, bind at 1, request.
    fold (add_log (LogInfo ("Creating new rate limit record for " +:+ client_id)) w1).
    destruct (next_outcome _) as [e2|].
    - reflexivity.
    - cbn beta iota. rewrite key_of_new_record. reflexivity. }
  unfold create_path in Hcreate.
  destruct (next_outcome w) as [e|] eqn:Hout.
  - cbn beta iota. apply Hcreate. reflexivity.
  - cbn beta iota. rewrite key_of_the_key, apply_update_bumped.
    cbn [get_table sent rl_table].
    destruct (bumped _) as [new|]; [reflexivity|].
    apply Hcreate. reflexivity.
Qed.

(** [increment] is the update call of [update_rate_limit_info], verbatim. *)
Lemma update_call_is_increment TTL_S client_id :
  update_rate_limit_info TTL_S client_id =
  try_except
    (now <~ time_int ;;
     try_except
       (increment client_id)
       [ (isinstance_Exception, fun e =>
            logger_info ("Creating new rate limit record for " +:+ client_id) ;;;
            try_except
              (put_item RL_AI (new_record client_id (now + TTL_S)))
              [ (isinstance_Exception, fun e =>
                   logger_error ("Error creating rate limit record: " +:+ str e) ;;;
                   throw e) ]);
         (isinstance_Exception, fun e =>
            logger_error ("Error updating rate limit record: " +:+ str e) ;;;
            throw e) ] ;;;
     ret VNone)%py
    [ (isinstance_Exception, fun e =>
         logger_error ("Error updating rate limit info: " +:+ str e) ;;;
         throw e)%py ].
Proof. reflexivity. Qed.

Lemma increment_eq client_id w :
  increment client_id w =
  let w1 := sent (mkCall UpdateItem RL_AI (the_key client_id)) w in
  match next_outcome w with
  | Some e => (Raise e, w1)
  | None =>
      match bumped (default (the_key client_id) (rl_table w !! client_id)) with
      | Some new => (Ok tt, set_table RL_AI (<[client_id := new]> (rl_table w1)) w1)
      | None => (Raise ValidationException, w1)
      end
  end.
Proof.
  unfold increment, update_item, bind, request.
  destruct (next_outcome w) as [e|]; cbn beta iota zeta; [reflexivity|].
  rewrite key_of_the_key, apply_update_bumped. reflexivity.
Qed.

(** The update call raised [e]: the request failed, or the expression could
    not be evaluated on the stored item. *)
Lemma increment_raises client_id w e w1 :
  increment client_id w = (Raise e, w1) ->
  w1 = sent (mkCall UpdateItem RL_AI (the_key client_id)) w /\
  (next_outcome w = Some e \/
   next_outcome w = None /\
   bumped (default (the_key client_id) (rl_table w !! client_id)) = None).
Proof.
  rewrite increment_eq; cbn zeta.
  destruct (next_outcome w) as [e'|].
  - intros [= -> <-]. auto.
  - destruct (bumped _); intros [= <- <-]; auto.
Qed.

(** The clause listed first takes every exception its class accepts, whatever
    clauses follow it. *)
Lemma first_clause_wins {A} (h : exc -> M A) (hs : list (handler A)) e :
  dispatch ((isinstance_Exception, h) :: hs) e = h e.
Proof. reflexivity. Qed.

(** When the update goes through, the stored item is the old one (or, for a
    key the table did not have, the bare key) with its counter bumped. *)
Lemma update_path TTL_S client_id w new :
  next_outcome w = None ->
  bumped (default (the_key client_id) (rl_table w !! client_id)) = Some new ->
  fst (update_rate_limit_info TTL_S client_id w) = Ok VNone /\
  rl_table (snd (update_rate_limit_info TTL_S client_id w)) !! client_id = Some new /\
  calls (snd (update_rate_limit_info TTL_S client_id w))
    = calls w ++ [mkCall UpdateItem RL_AI (the_key client_id)].
Proof.
  intros Hout Hb. rewrite update_rate_limit_info_eq; cbn zeta.
  rewrite Hout, Hb. cbn [fst snd set_table rl_table calls sent].
  by rewrite lookup_insert_eq.
Qed.

(** A successful increment of a record in its window adds one to its
    counter and leaves its [ttl] attribute as it was. *)
Lemma increment_live_record TTL_S client_id w old n :
  next_outcome w = None ->
  rl_table w !! client_id = Some old ->
  old !! "invocations" = Some (ANum n) ->
  fst (update_rate_limit_info TTL_S client_id w) = Ok VNone /\
  stored_attr (snd (update_rate_limit_info TTL_S client_id w)) client_id "invocations"
    = Some (ANum (n + 1)) /\
  stored_attr (snd (update_rate_limit_info TTL_S client_id w)) client_id "ttl"
    = old !! "ttl".
Proof.
  intros Hout Hold Hn.
  assert (Hb : bumped (default (the_key client_id) (rl_table w !! client_id))
               = Some (<["invocations" := ANum (n + 1)]> old)).
  { rewrite Hold; cbn [from_option id]. unfold bumped. by rewrite Hn. }
  destruct (update_path TTL_S client_id w _ Hout Hb) as (Hr & Hrec & _).
  split; [exact Hr|]. unfold stored_attr. rewrite Hrec. cbn [mbind option_bind].
  split; [apply lookup_insert_eq | by rewrite lookup_insert_ne].
Qed.

Lemma next_outcome_hd w : next_outcome w = hd None (faults w).
Proof. unfold next_outcome. by destruct (faults w) as [|[e|] fs]. Qed.

(** When the update call raises and the creation goes through, the record is
    replaced by a new one: one invocation, expiring [TTL_S] seconds from now. *)
Lemma creation_path TTL_S client_id w e fs :
  faults w = Some e :: fs ->
  hd None fs = None ->
  fst (update_rate_limit_info TTL_S client_id w) = Ok VNone /\
  rl_table (snd (update_rate_limit_info TTL_S client_id w)) !! client_id
    = Some (new_record client_id (clock w + TTL_S)).
Proof.
  intros Hf Hfs. rewrite update_rate_limit_info_eq; cbn zeta.
  rewrite next_outcome_hd, Hf; cbn [hd]. unfold create_path.
  rewrite next_outcome_hd; cbn [faults add_log sent]. rewrite Hf; cbn [tail].
  rewrite Hfs. cbn [fst snd set_table rl_table sent add_log clock].
  by rewrite lookup_insert_eq.
Qed.

(** The requests one call sends: the update, and the creation when the
    update raised. *)
Lemma requests_sent TTL_S client_id w :
  let upd := mkCall UpdateItem RL_AI (the_key client_id) in
  let put := mkCall PutItem RL_AI (new_record client_id (clock w + TTL_S)) in
  (exists w1, increment client_id w = (Ok tt, w1)) /\
    calls (snd (update_rate_limit_info TTL_S client_id w)) = calls w ++ [upd]
  \/
  (exists e w1, increment client_id w = (Raise e, w1)) /\
    calls (snd (update_rate_limit_info TTL_S client_id w)) = calls w ++ [upd; put].
Proof.
  cbn zeta. rewrite update_rate_limit_info_eq, increment_eq; cbn zeta.
  unfold create_path.
  destruct (next_outcome w) as [e|].
  - right. split; [eauto|].
    destruct (next_outcome _); cbn [snd calls set_table sent add_log clock];
      by rewrite <- app_assoc.
  - destruct (bumped _) as [new|].
    + left. split; [eauto|]. reflexivity.
    + right. split; [eauto|].
      destruct (next_outcome _); cbn [snd calls set_table sent add_log clock];
        by rewrite <- app_assoc.
Qed.

(** The log records one call emits. *)
Lemma records_logged TTL_S client_id w :
  let creating := LogInfo ("Creating new rate limit record for " +:+ client_id) in
  logs (snd (update_rate_limit_info TTL_S client_id w)) = logs w
  \/ logs (snd (update_rate_limit_info TTL_S client_id w)) = logs w ++ [creating]
  \/ exists e,
       logs (snd (update_rate_limit_info TTL_S client_id w))
       = logs w ++ [creating;
                    LogError ("Error creating rate limit record: " +:+ str e);
                    LogError ("Error updating rate limit info: " +:+ str e)].
Proof.
  cbn zeta. rewrite update_rate_limit_info_eq; cbn zeta.
  assert (Hc : forall w1, logs w1 = logs w ->
    logs (snd (create_path TTL_S client_id w1))
      = logs w ++ [LogInfo ("Creating new rate limit record for " +:+ client_id)]
    \/ exists e,
       logs (snd (create_path TTL_S client_id w1))
       = logs w ++ [LogInfo ("Creating new rate limit record for " +:+ client_id);
                    LogError ("Error creating rate limit record: " +:+ str e);
                    LogError ("Error updating rate limit info: " +:+ str e)]).
  { intros w1 Hl. unfold create_path.
    destruct (next_outcome _) as [e|];
      cbn [snd logs set_table sent add_log]; rewrite Hl.
    - right. exists e. by rewrite <- !app_assoc.
    - by left. }
  destruct (next_outcome w) as [e|].
  - right. by apply Hc.
  - destruct (bumped _) as [new|].
    + by left.
    + right. by apply Hc.
Qed.

(** ** The claims on [update_rate_limit_info] *)

(** C1. The first call for a key that has no record is claimed to leave the
    stored invocation count at exactly 1.  The code does not: with no record
    for [client_id] and the update request going through, [update_item]
    creates the item and evaluates [if_not_exists(invocations, :zero) + :inc]
    with [:zero] bound to 1, so the call succeeds and the stored count is 2,
    not 1. *)
Theorem C1_first_call_stores_two TTL_S client_id w :
  rl_table w !! client_id = None ->
  next_outcome w = None ->
  fst (update_rate_limit_info TTL_S client_id w) = Ok VNone /\
  stored_attr (snd (update_rate_limit_info TTL_S client_id w)) client_id "invocations"
    = Some (ANum 2) /\
  stored_attr (snd (update_rate_limit_info TTL_S client_id w)) client_id "invocations"
    <> Some (ANum 1).
Proof.
  intros Hnone Hout.
  assert (Hb : bumped (default (the_key client_id) (rl_table w !! client_id))
               = Some (<["invocations" := ANum 2]> (the_key client_id))).
  { rewrite Hnone; cbn [from_option id]. unfold bumped, the_key.
    by rewrite lookup_singleton_ne. }
  destruct (update_path TTL_S client_id w _ Hout Hb) as (Hr & Hrec & _).
  split; [exact Hr|]. unfold stored_attr. rewrite Hrec; cbn [mbind option_bind].
  rewrite lookup_insert_eq. split; [reflexivity | discriminate].
Qed.

Lemma C1_first_call_stores_two_witness :
  rl_table w_fresh !! "A" = None /\
  next_outcome w_fresh = None /\
  fst (update_rate_limit_info 60 "A" w_fresh) = Ok VNone /\
  stored_attr (snd (update_rate_limit_info 60 "A" w_fresh)) "A" "invocations"
    = Some (ANum 2) /\
  stored_attr (snd (update_rate_limit_info 60 "A" w_fresh)) "A" "invocations"
    <> Some (ANum 1).
Proof.
  split; [reflexivity|]. split; [reflexivity|].
  apply (C1_first_call_stores_two 60 "A" w_fresh); reflexivity.
Defined.

(** C2. When no record exists for a key, the record created is claimed to
    hold [invocations = 1] and [ttl = now + TTL_S].  The code builds exactly
    that item, but only in the clause that runs when the update call raises;
    with no record and the update request going through, the record is
    created by [update_item] instead: the key, a count of 2 and no expiry, an
    item different from the one the claim describes. *)
Theorem C2_record_created_without_fault TTL_S client_id w :
  rl_table w !! client_id = None ->
  next_outcome w = None ->
  rl_table (snd (update_rate_limit_info TTL_S client_id w)) !! client_id
    = Some (<["invocations" := ANum 2]> (the_key client_id)) /\
  <["invocations" := ANum 2]> (the_key client_id)
    <> new_record client_id (clock w + TTL_S).
Proof.
  intros Hnone Hout.
  assert (Hb : bumped (default (the_key client_id) (rl_table w !! client_id))
               = Some (<["invocations" := ANum 2]> (the_key client_id))).
  { rewrite Hnone; cbn [from_option id]. unfold bumped, the_key.
    by rewrite lookup_singleton_ne. }
  destruct (update_path TTL_S client_id w _ Hout Hb) as (_ & Hrec & _).
  split; [exact Hrec|].
  intros Heq. apply (f_equal (.!! "invocations")) in Heq.
  rewrite lookup_insert_eq, new_record_invocations in Heq. discriminate.
Qed.

Lemma C2_record_created_without_fault_witness :
  rl_table w_fresh !! "A" = None /\
  next_outcome w_fresh = None /\
  rl_table (snd (update_rate_limit_info 60 "A" w_fresh)) !! "A"
    = Some (<["invocations" := ANum 2]> (the_key "A")) /\
  <["invocations" := ANum 2]> (the_key "A") <> new_record "A" (clock w_fresh + 60).
Proof.
  split; [reflexivity|]. split; [reflexivity|].
  apply (C2_record_created_without_fault 60 "A" w_fresh); reflexivity.
Defined.

(** C3. Every record is claimed to carry a [ttl] attribute, written once at
    creation.  The code breaks this for the record of a key that had none:
    when the update request goes through, the record comes into being
    through [update_item], whose expression sets [invocations] only, so the
    record exists and has no [ttl] attribute at all. *)
Theorem C3_record_created_without_ttl TTL_S client_id w :
  rl_table w !! client_id = None ->
  next_outcome w = None ->
  is_Some (rl_table (snd (update_rate_limit_info TTL_S client_id w)) !! client_id) /\
  stored_attr (snd (update_rate_limit_info TTL_S client_id w)) client_id "ttl" = None.
Proof.
  intros Hnone Hout.
  assert (Hb : bumped (default (the_key client_id) (rl_table w !! client_id))
               = Some (<["invocations" := ANum 2]> (the_key client_id))).
  { rewrite Hnone; cbn [from_option id]. unfold bumped, the_key.
    by rewrite lookup_singleton_ne. }
  destruct (update_path TTL_S client_id w _ Hout Hb) as (_ & Hrec & _).
  unfold stored_attr. rewrite Hrec; cbn [mbind option_bind].
  split; [by eexists|].
  rewrite lookup_insert_ne by done. unfold the_key. by rewrite lookup_singleton_ne.
Qed.

Lemma C3_record_created_without_ttl_witness :
  rl_table w_fresh !! "A" = None /\
  next_outcome w_fresh = None /\
  is_Some (rl_table (snd (update_rate_limit_info 60 "A" w_fresh)) !! "A") /\
  stored_attr (snd (update_rate_limit_info 60 "A" w_fresh)) "A" "ttl" = None.
Proof.
  split; [reflexivity|]. split; [reflexivity|].
  apply (C3_record_created_without_ttl 60 "A" w_fresh); reflexivity.
Defined.

(** The other way the expiry gets rewritten: a record in its window, expiring
    at 1030 with 5 invocations, and an update request that is throttled.  The
    creation clause replaces the record: one invocation, expiring at 1060. *)
Example ttl_rewritten_when_throttled :
  stored_attr w_throttled "A" "ttl" = Some (ANum 1030) /\
  stored_attr (snd (update_rate_limit_info 60 "A" w_throttled)) "A" "ttl"
    = Some (ANum 1060) /\
  stored_attr (snd (update_rate_limit_info 60 "A" w_throttled)) "A" "invocations"
    = Some (ANum 1).
Proof. vm_compute. auto. Qed.

(** C4, as stated: the operation would return the new invocation count.  On
    a record with 5 invocations the call succeeds and stores 6, yet what it
    returns is not that count. *)
Lemma C4_count_not_returned :
  ~ (exists n,
       fst (update_rate_limit_info 60 "A" w_live) = Ok (VInt n) /\
       stored_attr (snd (update_rate_limit_info 60 "A" w_live)) "A" "invocations"
         = Some (ANum n)).
Proof.
  intros (n & Hr & _). vm_compute in Hr. discriminate.
Qed.

(** C4, amended.  On success the operation returns [None]; the new invocation
    count is not handed to the caller but left in the store, as the numeric
    [invocations] attribute of the record of the key: the count the record
    had plus one when the update went through on a record with a count, and
    1 when the update call raised and the record was written by the
    creation. *)
Theorem C4_success_returns_none TTL_S client_id w v :
  fst (update_rate_limit_info TTL_S client_id w) = Ok v ->
  v = VNone /\
  exists n,
    stored_attr (snd (update_rate_limit_info TTL_S client_id w)) client_id "invocations"
      = Some (ANum n) /\
    (forall old m,
       next_outcome w = None ->
       rl_table w !! client_id = Some old ->
       old !! "invocations" = Some (ANum m) ->
       n = m + 1) /\
    ((exists e w1, increment client_id w = (Raise e, w1)) -> n = 1).
Proof.
  rewrite update_rate_limit_info_eq, increment_eq; cbn zeta. unfold stored_attr.
  assert (Hc : forall w1,
    fst (create_path TTL_S client_id w1) = Ok v ->
    v = VNone /\
    rl_table (snd (create_path TTL_S client_id w1)) !! client_id
      ≫= (.!! "invocations") = Some (ANum 1)).
  { intros w1. unfold create_path.
    destruct (next_outcome _) as [e|]; cbn [fst snd]; [discriminate|].
    intros [= <-]. split; [reflexivity|].
    cbn [set_table rl_table]. rewrite lookup_insert_eq; cbn [mbind option_bind].
    apply new_record_invocations. }
  destruct (next_outcome w) as [e|].
  - intros Hok. destruct (Hc _ Hok) as [-> Hone].
    split; [reflexivity|]. exists 1. split; [exact Hone|].
    split; [discriminate | reflexivity].
  - destruct (bumped _) as [new|] eqn:Hb.
    + cbn [fst snd]. intros [= <-]. split; [reflexivity|].
      destruct (bumped_invocations _ _ Hb) as [n Hn]. exists n.
      cbn [set_table rl_table]. rewrite lookup_insert_eq; cbn [mbind option_bind].
      split; [exact Hn|]. split.
      * intros old m _ Hold Hm. rewrite Hold in Hb; cbn [from_option id] in Hb.
        unfold bumped in Hb. rewrite Hm in Hb. injection Hb as <-.
        rewrite lookup_insert_eq in Hn. by injection Hn as <-.
      * intros (e & w1 & [=]).
    + intros Hok. destruct (Hc _ Hok) as [-> Hone].
      split; [reflexivity|]. exists 1. split; [exact Hone|].
      split; [|reflexivity].
      intros old m _ Hold Hm. rewrite Hold in Hb; cbn [from_option id] in Hb.
      unfold bumped in Hb. rewrite Hm in Hb. discriminate.
Qed.

Lemma C4_success_returns_none_witness :
  (fst (update_rate_limit_info 60 "A" w_live) = Ok VNone /\
   exists n,
     stored_attr (snd (update_rate_limit_info 60 "A" w_live)) "A" "invocations"
       = Some (ANum n) /\
     n = 5 + 1) /\
  (fst (update_rate_limit_info 60 "A" w_throttled) = Ok VNone /\
   exists n,
     stored_attr (snd (update_rate_limit_info 60 "A" w_throttled)) "A" "invocations"
       = Some (ANum n) /\
     n = 1).
Proof.
  split.
  - split; [reflexivity|].
    destruct (C4_success_returns_none 60 "A" w_live VNone eq_refl)
      as (_ & n & Hn & Hlive & _).
    exists n. split; [exact Hn|]. apply (Hlive record_A 5); reflexivity.
  - split; [reflexivity|].
    destruct (C4_success_returns_none 60 "A" w_throttled VNone eq_refl)
      as (_ & n & Hn & _ & Hcreated).
    exists n. split; [exact Hn|]. apply Hcreated.
    exists throttled, (sent (mkCall UpdateItem RL_AI (the_key "A")) w_throttled).
    reflexivity.
Defined.

(** C5. Only a missing record is claimed to trigger the creation attempt,
    every other failure of the update call being handed to the caller.  The
    code does not tell them apart: whatever exception [e] the update request
    raises, the creation request is sent next, and when it goes through the
    call reports success and the record of the key is replaced by a new one.
    The clause written to re-raise the other failures comes second and never
    runs. *)
Theorem C5_any_failure_triggers_creation TTL_S client_id w e fs :
  faults w = Some e :: fs ->
  calls (snd (update_rate_limit_info TTL_S client_id w))
    = calls w ++ [mkCall UpdateItem RL_AI (the_key client_id);
                  mkCall PutItem RL_AI (new_record client_id (clock w + TTL_S))] /\
  (hd None fs = None ->
   fst (update_rate_limit_info TTL_S client_id w) = Ok VNone /\
   rl_table (snd (update_rate_limit_info TTL_S client_id w)) !! client_id
     = Some (new_record client_id (clock w + TTL_S))).
Proof.
  intros Hf. split.
  - destruct (requests_sent TTL_S client_id w) as [[[w1 Hok] _]|[_ Hcalls]];
      [|exact Hcalls].
    rewrite increment_eq, next_outcome_hd, Hf in Hok. discriminate.
  - intros Hfs. by apply (creation_path TTL_S client_id w e fs).
Qed.

Lemma C5_any_failure_triggers_creation_witness :
  faults w_throttled = [Some throttled] /\
  rl_table w_throttled !! "A" = Some record_A /\
  calls (snd (update_rate_limit_info 60 "A" w_throttled))
    = calls w_throttled ++ [mkCall UpdateItem RL_AI (the_key "A");
                            mkCall PutItem RL_AI (new_record "A" (clock w_throttled + 60))] /\
  (hd None (@nil (option exc)) = None ->
   fst (update_rate_limit_info 60 "A" w_throttled) = Ok VNone /\
   rl_table (snd (update_rate_limit_info 60 "A" w_throttled)) !! "A"
     = Some (new_record "A" (clock w_throttled + 60))).
Proof.
  split; [reflexivity|]. split; [reflexivity|].
  apply (C5_any_failure_triggers_creation 60 "A" w_throttled throttled []).
  reflexivity.
Defined.




(** C10. The second [except] clause of the update call, the one that logs
    "Error updating rate limit record" and re-raises, is unreachable.  Both
    clauses name [Exception]; every exception the update call raises is taken
    by the first, which logs "Creating new rate limit record" and attempts
    the creation, and in no run does a call emit the log record of the
    second. *)
Theorem C10_second_clause_never_runs TTL_S client_id w :
  (exists new,
     logs (snd (update_rate_limit_info TTL_S client_id w)) = logs w ++ new /\
     forallb (fun r => negb (from_second_handler r)) new = true) /\
  (forall e w1,
     increment client_id w = (Raise e, w1) ->
     exists rest,
       logs (snd (update_rate_limit_info TTL_S client_id w))
       = logs w ++ LogInfo ("Creating new rate limit record for " +:+ client_id)
                   :: rest).
Proof.
  split.
  - destruct (records_logged TTL_S client_id w) as [H|[H|[e H]]].
    + exists []. by rewrite app_nil_r.
    + eexists. split; [exact H|]. reflexivity.
    + eexists. split; [exact H|]. reflexivity.
  - intros e w1 Hraise.
    assert (Hnot : forall w', increment client_id w <> (Ok tt, w'))
      by (intros w'; rewrite Hraise; discriminate).
    destruct (requests_sent TTL_S client_id w) as [[[w' Hok] _]|[_ Hcalls]];
      [by destruct (Hnot w')|].
    destruct (records_logged TTL_S client_id w) as [H|[H|[e' H]]].
    + exfalso. revert Hcalls H Hraise.
      rewrite update_rate_limit_info_eq, increment_eq; cbn zeta.
      unfold create_path.
      destruct (next_outcome w) as [e0|].
      * destruct (next_outcome _);
          cbn [snd logs set_table sent add_log]; intros _ H _;
          rewrite <- ?app_assoc in H;
          apply (f_equal length) in H; rewrite !length_app in H; cbn in H; lia.
      * destruct (bumped _) as [new|]; [discriminate|].
        destruct (next_outcome _);
          cbn [snd logs set_table sent add_log]; intros _ H _;
          rewrite <- ?app_assoc in H;
          apply (f_equal length) in H; rewrite !length_app in H; cbn in H; lia.
    + exists []. exact H.
    + eexists. exact H.
Qed.

Lemma C10_second_clause_never_runs_witness :
  increment "A" w_throttled
    = (Raise throttled, sent (mkCall UpdateItem RL_AI (the_key "A")) w_throttled) /\
  (exists new,
     logs (snd (update_rate_limit_info 60 "A" w_throttled))
       = logs w_throttled ++ new /\
     forallb (fun r => negb (from_second_handler r)) new = true) /\
  exists rest,
    logs (snd (update_rate_limit_info 60 "A" w_throttled))
    = logs w_throttled ++ LogInfo ("Creating new rate limit record for " +:+ "A")
                          :: rest.
Proof.
  split; [reflexivity|].
  destruct (C10_second_clause_never_runs 60 "A" w_throttled) as [Hnever Hfirst].
  split; [exact Hnever|].
  apply (Hfirst throttled (sent (mkCall UpdateItem RL_AI (the_key "A")) w_throttled)).
  reflexivity.
Defined.

(** ** [get_rate_limit_info] *)

Lemma key_of_id client_id :
  key_of Users {[ "id" := AStr client_id ]} = Some client_id.
Proof. unfold key_of, key_attr. by rewrite lookup_singleton_eq. Qed.

Lemma get_rate_limit_info_eq client_id w :
  get_rate_limit_info client_id w =
  let w1 := sent (mkCall GetItem Users {[ "id" := AStr client_id ]}) w in
  match next_outcome w with
  | None => (Ok (default ∅ (user_table w !! client_id)), w1)
  | Some e =>
      (Raise e,
       if isinstance_ClientError e
       then add_log (LogError ("Error retrieving rate limit info: " +:+ str e)) w1
       else w1)
  end.
Proof.
  unfold get_rate_limit_info, try_except, bind at 1, get_item, bind, request.
  destruct (next_outcome w) as [e|]; cbn beta iota zeta.
  - cbn [dispatch]. destruct (isinstance_ClientError e); reflexivity.
  - rewrite key_of_id. reflexivity.
Qed.

(** C8. A client without an account record gets the empty dict, a value and
    not an exception, so the caller can go on with its defaults; an I/O fault
    of the account store is not swallowed: whatever exception the request
    raises, [get_rate_limit_info] raises it to its caller (a [ClientError]
    after logging it).  The lookup writes to neither table. *)
Theorem C8_not_found_is_a_value_fault_is_raised client_id w :
  (user_table w !! client_id = None ->
   next_outcome w = None ->
   fst (get_rate_limit_info client_id w) = Ok ∅) /\
  (forall e,
     next_outcome w = Some e ->
     fst (get_rate_limit_info client_id w) = Raise e) /\
  user_table (snd (get_rate_limit_info client_id w)) = user_table w /\
  rl_table (snd (get_rate_limit_info client_id w)) = rl_table w.
Proof.
  rewrite get_rate_limit_info_eq; cbn zeta.
  split; [|split].
  - intros Hnone Hout. by rewrite Hout, Hnone.
  - intros e Hout. by rewrite Hout.
  - destruct (next_outcome w) as [e|]; [destruct (isinstance_ClientError e)|];
      by split.
Qed.

Lemma C8_not_found_is_a_value_fault_is_raised_witness :
  (user_table w_fresh !! "A" = None /\
   next_outcome w_fresh = None /\
   fst (get_rate_limit_info "A" w_fresh) = Ok ∅) /\
  (next_outcome w_throttled = Some throttled /\
   fst (get_rate_limit_info "A" w_throttled) = Raise throttled).
Proof.
  split.
  - split; [reflexivity|]. split; [reflexivity|].
    apply (C8_not_found_is_a_value_fault_is_raised "A" w_fresh); reflexivity.
  - split; [reflexivity|].
    apply (C8_not_found_is_a_value_fault_is_raised "A" w_throttled). reflexivity.
Defined.

(** ** [lambda_handler] *)

Section HandlerProperties.

Context {Event Context_ Response AuthBP : Type}.
Variable parse_event : Event -> res (gmap string pyval).
Variable create_response : Z -> pyval -> Response.
Variable process_rate_limit_request : pyval -> pyval -> AuthBP -> M pyval.
Variable AUTH_BP : AuthBP.

Local Abbreviation handler :=
  (lambda_handler (Context_ := Context_) parse_event create_response
     process_rate_limit_request AUTH_BP).

Lemma lambda_handler_eq event context w :
  handler event context w =
  match parse_event event with
  | Raise e => on_error create_response e w
  | Ok d =>
      let client_id := dict_get d "client_id" in
      let session_id := dict_get d "session" in
      if negb (truthy client_id) || negb (truthy session_id)
      then (Ok (create_response 400 missing_fields_body), w)
      else
        match process_rate_limit_request client_id session_id AUTH_BP w with
        | (Ok result, w') => (Ok (create_response 200 result), w')
        | (Raise e, w') => on_error create_response e w'
        end
  end.
Proof.
  unfold lambda_handler, try_except, bind at 1.
  destruct (parse_event event) as [d|e]; cbn beta iota zeta.
  - unfold bind at 1.
    destruct (negb (truthy (dict_get d "client_id"))
              || negb (truthy (dict_get d "session"))).
    + reflexivity.
    + unfold ret at 1, bind. cbn beta iota.
      destruct (process_rate_limit_request _ _ _ w) as [[result|e] w'].
      * reflexivity.
      * unfold on_error. cbn [dispatch].
        destruct (isinstance_LambdaError e); reflexivity.
  - unfold on_error. cbn [dispatch].
    destruct (isinstance_LambdaError e); reflexivity.
Qed.

(** The handler answers every event with a response; it never raises. *)
Lemma lambda_handler_answers event context w :
  exists r, fst (handler event context w) = Ok r.
Proof.
  rewrite lambda_handler_eq.
  assert (Herr : forall e w', exists r, fst (on_error create_response e w') = Ok r).
  { intros e w'. unfold on_error. destruct (isinstance_LambdaError e); by eexists. }
  destruct (parse_event event) as [d|e]; [|apply Herr]. cbn zeta.
  destruct (_ || _); [by eexists|].
  destruct (process_rate_limit_request _ _ _ w) as [[result|e] w'];
    [by eexists | apply Herr].
Qed.

(** A field that is absent, [None] or the empty string is missing. *)
Lemma empty_or_absent_missing (d : gmap string pyval) k :
  d !! k = None \/ d !! k = Some VNone \/ d !! k = Some (VStr "") ->
  field_missing d k.
Proof.
  unfold field_missing, dict_get. by intros [-> | [-> | ->]].
Qed.

(** What the handler does with a parsed event that lacks a field. *)
Lemma missing_field_response event context w d :
  parse_event event = Ok d ->
  field_missing d "client_id" \/ field_missing d "session" ->
  handler event context w
  = (Ok (create_response 400 missing_fields_body), w).
Proof.
  unfold field_missing. intros Hparse Hmiss.
  rewrite lambda_handler_eq, Hparse; cbn zeta.
  destruct Hmiss as [-> | ->]; [reflexivity|].
  by rewrite orb_true_r.
Qed.

(** C7. A request whose [client_id] or [session] is missing (absent, [None],
    empty) is answered with the 400 response that names the required fields,
    and the world is left exactly as it was: no request is sent to the store,
    no record is incremented or created, and the engine is not called. *)
Theorem C7_missing_field_is_rejected_without_mutation event context w d :
  parse_event event = Ok d ->
  field_missing d "client_id" \/ field_missing d "session" ->
  fst (handler event context w) = Ok (create_response 400 missing_fields_body) /\
  snd (handler event context w) = w /\
  calls (snd (handler event context w)) = calls w /\
  rl_table (snd (handler event context w)) = rl_table w.
Proof.
  intros Hparse Hmiss.
  by rewrite (missing_field_response event context w d).
Qed.

(** C9. The missing-field error is answered with a client-fault status, 400,
    and a message that says what is missing; an exception that is not a
    [LambdaError], whether it comes from the parser or from the engine, is
    answered with status 500 and one fixed body, the same for every such
    exception, so that nothing of the exception reaches the caller. *)
Theorem C9_error_responses event context w :
  (forall d,
     parse_event event = Ok d ->
     field_missing d "client_id" \/ field_missing d "session" ->
     fst (handler event context w)
     = Ok (create_response 400
             (VDict [ ("message",
                       VStr "Missing required fields: client_id and session are required.");
                      ("error", VStr "LambdaError") ]))) /\
  (forall e,
     isinstance_LambdaError e = false ->
     parse_event event = Raise e \/
     (exists d w',
        parse_event event = Ok d /\
        ~ (field_missing d "client_id" \/ field_missing d "session") /\
        process_rate_limit_request
          (dict_get d "client_id") (dict_get d "session") AUTH_BP w
        = (Raise e, w')) ->
     fst (handler event context w)
     = Ok (create_response 500
             (VDict [ ("message", VStr "An internal server error occurred.") ]))).
Proof.
  split.
  - intros d Hparse Hmiss.
    by rewrite (missing_field_response event context w d).
  - intros e Hcls [Hparse | (d & w' & Hparse & Hpresent & Hraise)];
      rewrite lambda_handler_eq, Hparse; cbn zeta.
    + unfold on_error. by rewrite Hcls.
    + unfold field_missing in Hpresent.
      destruct (truthy (dict_get d "client_id")); [|tauto].
      destruct (truthy (dict_get d "session")); [|tauto].
      cbn [negb orb]. rewrite Hraise. unfold on_error. by rewrite Hcls.
Qed.

End HandlerProperties.

Lemma C7_missing_field_is_rejected_without_mutation_witness :
  parsed no_client = Ok no_client /\
  (field_missing no_client "client_id" \/ field_missing no_client "session") /\
  fst (lambda_handler parsed pair counting_engine tt no_client tt w_fresh)
    = Ok (400, missing_fields_body) /\
  snd (lambda_handler parsed pair counting_engine tt no_client tt w_fresh) = w_fresh /\
  calls (snd (lambda_handler parsed pair counting_engine tt no_client tt w_fresh))
    = calls w_fresh /\
  rl_table (snd (lambda_handler parsed pair counting_engine tt no_client tt w_fresh))
    = rl_table w_fresh.
Proof.
  split; [reflexivity|]. split; [left; reflexivity|].
  apply (C7_missing_field_is_rejected_without_mutation
           parsed pair counting_engine tt no_client tt w_fresh no_client).
  - reflexivity.
  - left. reflexivity.
Defined.

(** For contrast, the same handler on an event with both fields: the engine
    runs and the store is written. *)
Example well_formed_request_is_counted :
  fst (lambda_handler parsed pair counting_engine tt well_formed tt w_live)
    = Ok (200, VDict []) /\
  stored_attr (snd (lambda_handler parsed pair counting_engine tt well_formed tt w_live))
    "A" "invocations" = Some (ANum 6).
Proof. vm_compute. auto. Qed.

Lemma C9_error_responses_witness :
  fst (lambda_handler parsed pair counting_engine tt empty_session tt w_fresh)
    = Ok (400,
          VDict [ ("message",
                   VStr "Missing required fields: client_id and session are required.");
                  ("error", VStr "LambdaError") ]) /\
  fst (lambda_handler parsed pair counting_engine tt well_formed tt w_both_fail)
    = Ok (500, VDict [ ("message", VStr "An internal server error occurred.") ]).
Proof.
  destruct (C9_error_responses parsed pair counting_engine tt
              empty_session tt w_fresh) as [Hclient _].
  destruct (C9_error_responses parsed pair counting_engine tt
              well_formed tt w_both_fail) as [_ Hserver].
  split.
  - apply (Hclient empty_session); [reflexivity | right; reflexivity].
  - apply (Hserver already_there); [reflexivity|].
    right. exists well_formed.
    exists (snd (counting_engine (VStr "A") (VStr "s-1") tt w_both_fail)).
    split; [reflexivity|]. split.
    + unfold field_missing. vm_compute. intros [H|H]; discriminate.
    + reflexivity.
Defined.

(** * Further properties *)

(** ** Sequences of calls *)

Lemma fault_free_next w :
  fault_free (faults w) = true -> next_outcome w = None.
Proof.
  rewrite next_outcome_hd. unfold fault_free.
  destruct (faults w) as [|[e|] fs]; cbn; [done | discriminate | done].
Qed.

Lemma fault_free_tail fs : fault_free fs = true -> fault_free (tail fs) = true.
Proof.
  unfold fault_free. destruct fs as [|o fs]; cbn; [done|].
  by intros [_ H]%andb_prop.
Qed.

(** One call at time [t] on a record with a numeric counter, with no fault
    to come: it returns [None] and only the counter of the record changes. *)
Lemma step_on_counted_record TTL_S client_id t w old n :
  fault_free (faults w) = true ->
  rl_table w !! client_id = Some old ->
  old !! "invocations" = Some (ANum n) ->
  exists w1,
    update_rate_limit_info TTL_S client_id (set_clock t w) = (Ok VNone, w1) /\
    fault_free (faults w1) = true /\
    rl_table w1 !! client_id = Some (<["invocations" := ANum (n + 1)]> old).
Proof.
  intros Hff Hold Hn. rewrite update_rate_limit_info_eq; cbn zeta.
  assert (Hout : next_outcome (set_clock t w) = None)
    by (by apply fault_free_next).
  rewrite Hout. cbn [set_clock rl_table]. rewrite Hold. cbn [from_option id].
  unfold bumped. rewrite Hn.
  eexists. split; [reflexivity|].
  cbn [set_table sent faults rl_table set_clock].
  split; [by apply fault_free_tail | by rewrite lookup_insert_eq].
Qed.

Lemma calls_at_counted_record TTL_S client_id ts : forall w old n,
  fault_free (faults w) = true ->
  rl_table w !! client_id = Some old ->
  old !! "invocations" = Some (ANum n) ->
  fst (calls_at TTL_S client_id ts w) = List.map (fun _ => Ok VNone) ts /\
  rl_table (snd (calls_at TTL_S client_id ts w)) !! client_id
    = Some (<["invocations" := ANum (n + Z.of_nat (length ts))]> old).
Proof.
  induction ts as [|t ts IH]; intros w old n Hff Hold Hn.
  - cbn. split; [reflexivity|]. rewrite Hold. f_equal.
    rewrite Z.add_0_r. symmetry. by apply insert_id.
  - cbn [calls_at].
    destruct (step_on_counted_record TTL_S client_id t w old n Hff Hold Hn)
      as (w1 & -> & Hff1 & Hrec1).
    assert (Hn1 : (<["invocations" := ANum (n + 1)]> old) !! "invocations"
                  = Some (ANum (n + 1))) by apply lookup_insert_eq.
    destruct (IH w1 _ (n + 1) Hff1 Hrec1 Hn1) as [Hrs Hrec].
    destruct (calls_at TTL_S client_id ts w1) as [rs w2]. cbn [fst snd] in *.
    split; [by rewrite Hrs|].
    rewrite Hrec, insert_insert_eq. do 3 f_equal. cbn [length]. lia.
Qed.

(** X1. Fixed window.  On a record with a counter, any number of calls made
    at any clock readings, with no request failing, all return [None], add
    exactly one to the counter each, and leave every other attribute of the
    record, its [ttl] among them, as it was: the expiry is never extended. *)
Theorem increments_accumulate_and_keep_expiry TTL_S client_id ts w old n :
  fault_free (faults w) = true ->
  rl_table w !! client_id = Some old ->
  old !! "invocations" = Some (ANum n) ->
  fst (calls_at TTL_S client_id ts w) = List.map (fun _ => Ok VNone) ts /\
  stored_attr (snd (calls_at TTL_S client_id ts w)) client_id "invocations"
    = Some (ANum (n + Z.of_nat (length ts))) /\
  (forall a, a <> "invocations" ->
     stored_attr (snd (calls_at TTL_S client_id ts w)) client_id a = old !! a).
Proof.
  intros Hff Hold Hn.
  destruct (calls_at_counted_record TTL_S client_id ts w old n Hff Hold Hn)
    as [Hrs Hrec].
  split; [exact Hrs|]. unfold stored_attr. rewrite Hrec. cbn [mbind option_bind].
  split; [apply lookup_insert_eq|].
  intros a Ha. by rewrite lookup_insert_ne.
Qed.

Lemma increments_accumulate_and_keep_expiry_witness :
  fst (calls_at 60 "A" [1000; 1010; 1500] w_live)
    = [Ok VNone; Ok VNone; Ok VNone] /\
  stored_attr (snd (calls_at 60 "A" [1000; 1010; 1500] w_live)) "A" "invocations"
    = Some (ANum 8) /\
  stored_attr (snd (calls_at 60 "A" [1000; 1010; 1500] w_live)) "A" "ttl"
    = Some (ANum 1030).
Proof.
  destruct (increments_accumulate_and_keep_expiry 60 "A" [1000; 1010; 1500]
              w_live record_A 5) as (Hrs & Hn & Hother);
    [reflexivity | reflexivity | reflexivity |].
  split; [exact Hrs|]. split; [exact Hn|].
  rewrite (Hother "ttl"); [reflexivity | discriminate].
Defined.

(** X2. A key first seen without a fault never gets an expiry.  From a table
    with no record for the client, [k + 1] calls with no request failing all
    return [None]; the counter then reads [k + 2], one more than the number
    of calls, and the record still has no [ttl] attribute. *)
Theorem fresh_key_counts_one_ahead_without_expiry TTL_S client_id t ts w :
  fault_free (faults w) = true ->
  rl_table w !! client_id = None ->
  fst (calls_at TTL_S client_id (t :: ts) w)
    = List.map (fun _ => Ok VNone) (t :: ts) /\
  stored_attr (snd (calls_at TTL_S client_id (t :: ts) w)) client_id "invocations"
    = Some (ANum (Z.of_nat (length ts) + 2)) /\
  stored_attr (snd (calls_at TTL_S client_id (t :: ts) w)) client_id "ttl" = None.
Proof.
  intros Hff Hnone. cbn [calls_at].
  rewrite update_rate_limit_info_eq; cbn zeta.
  rewrite (fault_free_next (set_clock t w) Hff).
  cbn [set_clock rl_table]. rewrite Hnone. cbn [from_option id].
  replace (bumped (the_key client_id))
    with (Some (<["invocations" := ANum 2]> (the_key client_id)))
    by (unfold bumped, the_key; by rewrite lookup_singleton_ne).
  set (w1 := set_table RL_AI _ _).
  assert (Hff1 : fault_free (faults w1) = true)
    by (by apply fault_free_tail).
  assert (Hrec1 : rl_table w1 !! client_id
                  = Some (<["invocations" := ANum 2]> (the_key client_id)))
    by apply lookup_insert_eq.
  assert (Hn1 : (<["invocations" := ANum 2]> (the_key client_id)) !! "invocations"
                = Some (ANum 2)) by apply lookup_insert_eq.
  destruct (calls_at_counted_record TTL_S client_id ts w1 _ 2 Hff1 Hrec1 Hn1)
    as [Hrs Hrec].
  destruct (calls_at TTL_S client_id ts w1) as [rs w2]. cbn [fst snd] in *.
  split; [cbn [List.map]; by rewrite Hrs|].
  unfold stored_attr. rewrite Hrec. cbn [mbind option_bind].
  rewrite insert_insert_eq, lookup_insert_eq.
  split; [do 2 f_equal; lia|].
  rewrite lookup_insert_ne by done. unfold the_key. by rewrite lookup_singleton_ne.
Qed.

Lemma fresh_key_counts_one_ahead_without_expiry_witness :
  fst (calls_at 60 "A" [1000; 1001; 1002] w_fresh)
    = [Ok VNone; Ok VNone; Ok VNone] /\
  stored_attr (snd (calls_at 60 "A" [1000; 1001; 1002] w_fresh)) "A" "invocations"
    = Some (ANum 4) /\
  stored_attr (snd (calls_at 60 "A" [1000; 1001; 1002] w_fresh)) "A" "ttl" = None.
Proof.
  apply (fresh_key_counts_one_ahead_without_expiry 60 "A" 1000 [1001; 1002] w_fresh);
    reflexivity.
Defined.

(** X3. The window opened by the creation clause is fixed.  When the update
    request of the first call raises and everything after it goes through,
    the first call writes the record with one invocation and expiry
    [t0 + TTL_S]; the [k] calls that follow, made at any later readings, each
    add one and leave the expiry at [t0 + TTL_S]. *)
Theorem window_fixed_after_creation TTL_S client_id t0 ts w e fs :
  faults w = Some e :: fs ->
  fault_free fs = true ->
  fst (calls_at TTL_S client_id (t0 :: ts) w)
    = List.map (fun _ => Ok VNone) (t0 :: ts) /\
  stored_attr (snd (calls_at TTL_S client_id (t0 :: ts) w)) client_id "invocations"
    = Some (ANum (1 + Z.of_nat (length ts))) /\
  stored_attr (snd (calls_at TTL_S client_id (t0 :: ts) w)) client_id "ttl"
    = Some (ANum (t0 + TTL_S)).
Proof.
  intros Hf Hfs. cbn [calls_at].
  rewrite update_rate_limit_info_eq; cbn zeta.
  rewrite next_outcome_hd. cbn [set_clock faults]. rewrite Hf. cbn [hd].
  unfold create_path. rewrite next_outcome_hd.
  cbn [add_log sent faults clock set_clock]. rewrite Hf. cbn [tail].
  replace (hd None fs) with (@None exc)
    by (unfold fault_free in Hfs; destruct fs as [|[e'|] fs']; cbn in *; done).
  set (w1 := set_table RL_AI _ _).
  assert (Hff1 : fault_free (faults w1) = true).
  { subst w1. cbn [set_table sent add_log faults set_clock]. rewrite Hf.
    cbn [tail]. by apply fault_free_tail. }
  assert (Hrec1 : rl_table w1 !! client_id
                  = Some (new_record client_id (t0 + TTL_S)))
    by apply lookup_insert_eq.
  destruct (calls_at_counted_record TTL_S client_id ts w1 _ 1 Hff1 Hrec1
              (new_record_invocations client_id (t0 + TTL_S))) as [Hrs Hrec].
  destruct (calls_at TTL_S client_id ts w1) as [rs w2]. cbn [fst snd] in *.
  split; [cbn [List.map]; by rewrite Hrs|].
  unfold stored_attr. rewrite Hrec. cbn [mbind option_bind].
  split; [apply lookup_insert_eq|].
  rewrite lookup_insert_ne by done. apply new_record_ttl.
Qed.

Lemma window_fixed_after_creation_witness :
  fst (calls_at 60 "A" [1000; 1020; 1059] w_throttled)
    = [Ok VNone; Ok VNone; Ok VNone] /\
  stored_attr (snd (calls_at 60 "A" [1000; 1020; 1059] w_throttled)) "A" "invocations"
    = Some (ANum 3) /\
  stored_attr (snd (calls_at 60 "A" [1000; 1020; 1059] w_throttled)) "A" "ttl"
    = Some (ANum 1060).
Proof.
  apply (window_fixed_after_creation 60 "A" 1000 [1020; 1059] w_throttled throttled []);
    reflexivity.
Defined.

(** ** What one call leaves alone *)

Lemma create_path_frame TTL_S client_id w1 :
  (forall other, other <> client_id ->
     rl_table (snd (create_path TTL_S client_id w1)) !! other = rl_table w1 !! other) /\
  user_table (snd (create_path TTL_S client_id w1)) = user_table w1.
Proof.
  unfold create_path.
  destruct (next_outcome _) as [e|]; cbn [fst snd set_table sent add_log rl_table user_table].
  - by split.
  - split; [|done].
    intros other Hne. by rewrite lookup_insert_ne.
Qed.

Lemma update_frame TTL_S client_id w :
  (forall other, other <> client_id ->
     rl_table (snd (update_rate_limit_info TTL_S client_id w)) !! other
     = rl_table w !! other) /\
  user_table (snd (update_rate_limit_info TTL_S client_id w)) = user_table w.
Proof.
  rewrite update_rate_limit_info_eq; cbn zeta.
  destruct (create_path_frame TTL_S client_id
              (sent (mkCall UpdateItem RL_AI (the_key client_id)) w))
    as (Hother & Husers).
  destruct (next_outcome w) as [e|]; [by split|].
  destruct (bumped _) as [new|]; [|by split].
  cbn [snd set_table sent rl_table user_table]. split; [|done].
  intros other Hne. by rewrite lookup_insert_ne.
Qed.

(** X4. One call writes to the record of its own client only: whatever the
    store answers, the record of every other client and the whole account
    table are after the call what they were before it. *)
Theorem other_records_untouched TTL_S client_id other w :
  other <> client_id ->
  rl_table (snd (update_rate_limit_info TTL_S client_id w)) !! other
    = rl_table w !! other /\
  user_table (snd (update_rate_limit_info TTL_S client_id w)) = user_table w.
Proof.
  intros Hne. destruct (update_frame TTL_S client_id w) as [Hother Husers].
  split; [by apply Hother | exact Husers].
Qed.

Lemma other_records_untouched_witness :
  rl_table (snd (update_rate_limit_info 60 "B" w_live)) !! "A" = Some record_A /\
  user_table (snd (update_rate_limit_info 60 "B" w_live)) = user_table w_live.
Proof.
  apply (other_records_untouched 60 "B" "A" w_live). discriminate.
Defined.

(** X6. What a call logs.  A call that returns logs no error record.  A call
    that raises [e] has logged, after the notice of the creation attempt, the
    text of [e] twice, once by the clause of the creation and once by the
    outermost clause; [e] is the exception of the creation request, and the
    exception that made the update call fail is neither raised nor logged. *)
Theorem errors_logged_twice_when_raised TTL_S client_id w :
  (forall v,
     fst (update_rate_limit_info TTL_S client_id w) = Ok v ->
     exists new,
       logs (snd (update_rate_limit_info TTL_S client_id w)) = logs w ++ new /\
       forallb (fun r => negb (is_error r)) new = true) /\
  (forall e,
     fst (update_rate_limit_info TTL_S client_id w) = Raise e ->
     logs (snd (update_rate_limit_info TTL_S client_id w))
     = logs w ++ [LogInfo ("Creating new rate limit record for " +:+ client_id);
                  LogError ("Error creating rate limit record: " +:+ str e);
                  LogError ("Error updating rate limit info: " +:+ str e)] /\
     hd None (tail (faults w)) = Some e).
Proof.
  rewrite update_rate_limit_info_eq; cbn zeta.
  assert (Hc : forall w1, logs w1 = logs w -> faults w1 = tail (faults w) ->
    (forall v, fst (create_path TTL_S client_id w1) = Ok v ->
       exists new,
         logs (snd (create_path TTL_S client_id w1)) = logs w ++ new /\
         forallb (fun r => negb (is_error r)) new = true) /\
    (forall e, fst (create_path TTL_S client_id w1) = Raise e ->
       logs (snd (create_path TTL_S client_id w1))
       = logs w ++ [LogInfo ("Creating new rate limit record for " +:+ client_id);
                    LogError ("Error creating rate limit record: " +:+ str e);
                    LogError ("Error updating rate limit info: " +:+ str e)] /\
       hd None (tail (faults w)) = Some e)).
  { intros w1 Hl Hf. unfold create_path. rewrite next_outcome_hd.
    cbn [add_log faults]. rewrite Hf.
    destruct (hd None (tail (faults w))) as [e'|];
      cbn [fst snd logs set_table sent add_log]; rewrite Hl; split.
    - discriminate.
    - intros e [= <-]. by rewrite <- !app_assoc.
    - intros v _. by eexists.
    - discriminate. }
  destruct (next_outcome w) as [e0|]; [by apply Hc|].
  destruct (bumped _) as [new|]; [|by apply Hc].
  cbn [fst snd logs set_table sent]. split; [|discriminate].
  intros v _. exists []. by rewrite app_nil_r.
Qed.

Lemma errors_logged_twice_when_raised_witness :
  fst (update_rate_limit_info 60 "A" w_live) = Ok VNone /\
  (exists new,
     logs (snd (update_rate_limit_info 60 "A" w_live)) = logs w_live ++ new /\
     forallb (fun r => negb (is_error r)) new = true) /\
  fst (update_rate_limit_info 60 "A" w_both_fail) = Raise already_there /\
  logs (snd (update_rate_limit_info 60 "A" w_both_fail))
  = logs w_both_fail
    ++ [LogInfo ("Creating new rate limit record for " +:+ "A");
        LogError ("Error creating rate limit record: " +:+ str already_there);
        LogError ("Error updating rate limit info: " +:+ str already_there)] /\
  hd None (tail (faults w_both_fail)) = Some already_there.
Proof.
  destruct (errors_logged_twice_when_raised 60 "A" w_live) as [Hok _].
  destruct (errors_logged_twice_when_raised 60 "A" w_both_fail) as [_ Hraise].
  split; [reflexivity|]. split; [apply (Hok VNone); reflexivity|].
  split; [reflexivity|]. apply (Hraise already_there). reflexivity.
Defined.

(** ** The account lookup *)

(** X7. The lookup is one point read: it sends exactly one [get_item]
    request, to the account table, with the key [{'id': client_id}]; when the
    request goes through and the account exists, the stored item comes back
    as it is. *)
Theorem lookup_is_one_read client_id w :
  calls (snd (get_rate_limit_info client_id w))
    = calls w ++ [mkCall GetItem Users {[ "id" := AStr client_id ]}] /\
  (forall account,
     next_outcome w = None ->
     user_table w !! client_id = Some account ->
     fst (get_rate_limit_info client_id w) = Ok account).
Proof.
  rewrite get_rate_limit_info_eq; cbn zeta. split.
  - destruct (next_outcome w) as [e|]; [destruct (isinstance_ClientError e)|];
      reflexivity.
  - intros account Hout Hacc. by rewrite Hout, Hacc.
Qed.

Lemma lookup_is_one_read_witness :
  next_outcome w_account = None /\
  user_table w_account !! "A" = Some account_A /\
  fst (get_rate_limit_info "A" w_account) = Ok account_A.
Proof.
  split; [reflexivity|]. split; [reflexivity|].
  apply (lookup_is_one_read "A" w_account); reflexivity.
Defined.

(** X8. Only a [ClientError] of the lookup is logged.  When the request
    raises a [ClientError], one error record with its text is added to the
    log; when it raises any other exception, or goes through, the log is left
    as it was. *)
Theorem lookup_logs_client_errors_only client_id w :
  (forall e,
     next_outcome w = Some e ->
     isinstance_ClientError e = true ->
     logs (snd (get_rate_limit_info client_id w))
     = logs w ++ [LogError ("Error retrieving rate limit info: " +:+ str e)]) /\
  (forall e,
     next_outcome w = Some e ->
     isinstance_ClientError e = false ->
     logs (snd (get_rate_limit_info client_id w)) = logs w) /\
  (next_outcome w = None ->
   logs (snd (get_rate_limit_info client_id w)) = logs w).
Proof.
  rewrite get_rate_limit_info_eq; cbn zeta.
  split; [|split].
  - intros e -> ->. reflexivity.
  - intros e -> ->. reflexivity.
  - intros ->. reflexivity.
Qed.

Lemma lookup_logs_client_errors_only_witness :
  logs (snd (get_rate_limit_info "A" w_throttled))
    = logs w_throttled
      ++ [LogError ("Error retrieving rate limit info: " +:+ str throttled)] /\
  logs (snd (get_rate_limit_info "A"
               (mkWorld ∅ ∅ 1000 [Some (OtherException "TimeoutError" "timed out")] [] [])))
    = [] /\
  logs (snd (get_rate_limit_info "A" w_account)) = logs w_account.
Proof.
  split; [|split].
  - apply (lookup_logs_client_errors_only "A" w_throttled); reflexivity.
  - apply (lookup_logs_client_errors_only "A"
             (mkWorld ∅ ∅ 1000 [Some (OtherException "TimeoutError" "timed out")] [] [])
          ) with (e := OtherException "TimeoutError" "timed out"); reflexivity.
  - apply (lookup_logs_client_errors_only "A" w_account); reflexivity.
Defined.

Lemma faults_after_call TTL_S client_id w :
  faults (snd (update_rate_limit_info TTL_S client_id w)) = tail (faults w) \/
  faults (snd (update_rate_limit_info TTL_S client_id w)) = tail (tail (faults w)).
Proof.
  rewrite update_rate_limit_info_eq; cbn zeta. unfold create_path.
  destruct (next_outcome w) as [e|].
  - right. destruct (next_outcome _); reflexivity.
  - destruct (bumped _) as [new|]; [by left|].
    right. destruct (next_outcome _); reflexivity.
Qed.

(** X9. Counting does not disturb the account lookup.  With no fault to
    come, the lookup of any client after a call of [update_rate_limit_info]
    gives what it gave before the call. *)
Theorem lookup_unchanged_by_counting TTL_S client_id other w :
  fault_free (faults w) = true ->
  fst (get_rate_limit_info other (snd (update_rate_limit_info TTL_S client_id w)))
  = fst (get_rate_limit_info other w).
Proof.
  intros Hff. rewrite !get_rate_limit_info_eq; cbn zeta.
  rewrite (fault_free_next w Hff).
  assert (Hff' : fault_free (faults (snd (update_rate_limit_info TTL_S client_id w)))
                 = true).
  { destruct (faults_after_call TTL_S client_id w) as [-> | ->];
      auto using fault_free_tail. }
  rewrite (fault_free_next _ Hff'). cbn [fst].
  destruct (update_frame TTL_S client_id w) as [_ ->]. reflexivity.
Qed.

Lemma lookup_unchanged_by_counting_witness :
  fst (get_rate_limit_info "A" (snd (update_rate_limit_info 60 "A" w_account)))
  = Ok account_A.
Proof.
  rewrite (lookup_unchanged_by_counting 60 "A" "A" w_account); reflexivity.
Defined.

(** ** The handler *)

Section HandlerFurther.

Context {Event Context_ Response AuthBP : Type}.
Variable parse_event : Event -> res (gmap string pyval).
Variable create_response : Z -> pyval -> Response.
Variable AUTH_BP : AuthBP.

Local Abbreviation handler_with engine :=
  (lambda_handler (Context_ := Context_) parse_event create_response engine AUTH_BP).

(** X10. The handler always answers.  Whatever the parser and the engine do,
    raise included, the handler returns a response and never raises; the
    response is the 200 one built from the engine's result, the 400 one for
    missing fields, the one built from a [LambdaError] that was raised, or
    the 500 one. *)
Theorem handler_always_answers engine event context w :
  (exists result,
     fst (handler_with engine event context w) = Ok (create_response 200 result)) \/
  fst (handler_with engine event context w)
    = Ok (create_response 400 missing_fields_body) \/
  (exists name status message,
     fst (handler_with engine event context w)
     = Ok (create_response status
             (VDict [ ("message", VStr message); ("error", VStr name) ]))) \/
  fst (handler_with engine event context w)
    = Ok (create_response 500 internal_error_body).
Proof.
  rewrite lambda_handler_eq.
  assert (Herr : forall e w',
    (exists name status message,
       fst (on_error create_response e w')
       = Ok (create_response status
               (VDict [ ("message", VStr message); ("error", VStr name) ]))) \/
    fst (on_error create_response e w')
      = Ok (create_response 500 internal_error_body)).
  { intros e w'. unfold on_error.
    destruct (isinstance_LambdaError e); [left; by do 3 eexists | by right]. }
  destruct (parse_event event) as [d|e]; [|right; right; apply Herr]. cbn zeta.
  destruct (_ || _); [by right; left|].
  destruct (engine _ _ _ w) as [[result|e] w'];
    [left; by eexists | right; right; apply Herr].
Qed.

(** X11. Validation is by truth value only.  When the parsed event has a
    truthy [client_id] and a truthy [session], of whatever type, the engine
    is called with these two values and [AUTH_BP]; when it returns, the
    answer is the 200 response built from its result, and the handler adds
    nothing to what the engine did to the world. *)
Theorem accepted_request_goes_to_engine engine event context w d result w' :
  parse_event event = Ok d ->
  truthy (dict_get d "client_id") = true ->
  truthy (dict_get d "session") = true ->
  engine (dict_get d "client_id") (dict_get d "session") AUTH_BP w = (Ok result, w') ->
  handler_with engine event context w = (Ok (create_response 200 result), w').
Proof.
  intros Hparse Hc Hs Hrun.
  rewrite lambda_handler_eq, Hparse; cbn zeta.
  by rewrite Hc, Hs, Hrun.
Qed.

(** X12. A [LambdaError] is answered with its own status and message.  When
    the parser or the engine raises a [LambdaError], the response carries the
    status code, the message and the class name of that exception, nothing is
    logged, and the world is as the engine left it. *)
Theorem lambda_error_is_reported_as_raised engine event context w name status message :
  let e := LambdaError name status message in
  (parse_event event = Raise e ->
   handler_with engine event context w
   = (Ok (create_response status
            (VDict [ ("message", VStr message); ("error", VStr name) ])), w)) /\
  (forall d w',
     parse_event event = Ok d ->
     truthy (dict_get d "client_id") = true ->
     truthy (dict_get d "session") = true ->
     engine (dict_get d "client_id") (dict_get d "session") AUTH_BP w = (Raise e, w') ->
     handler_with engine event context w
     = (Ok (create_response status
              (VDict [ ("message", VStr message); ("error", VStr name) ])), w')).
Proof.
  cbn zeta. split.
  - intros Hparse. by rewrite lambda_handler_eq, Hparse.
  - intros d w' Hparse Hc Hs Hrun.
    rewrite lambda_handler_eq, Hparse; cbn zeta.
    by rewrite Hc, Hs, Hrun.
Qed.

(** X13. An unexpected exception is logged in full, once.  When the parser
    or the engine raises an exception that is not a [LambdaError], the world
    the handler leaves is the one the exception was raised in plus one error
    record that holds the text of the exception. *)
Theorem unexpected_error_is_logged_once engine event context w e :
  isinstance_LambdaError e = false ->
  (parse_event event = Raise e ->
   snd (handler_with engine event context w)
   = add_log (LogError ("An unexpected error occurred: " +:+ str e)) w) /\
  (forall d w',
     parse_event event = Ok d ->
     truthy (dict_get d "client_id") = true ->
     truthy (dict_get d "session") = true ->
     engine (dict_get d "client_id") (dict_get d "session") AUTH_BP w = (Raise e, w') ->
     snd (handler_with engine event context w)
     = add_log (LogError ("An unexpected error occurred: " +:+ str e)) w').
Proof.
  intros Hcls. split.
  - intros Hparse. rewrite lambda_handler_eq, Hparse.
    unfold on_error. by rewrite Hcls.
  - intros d w' Hparse Hc Hs Hrun.
    rewrite lambda_handler_eq, Hparse; cbn zeta.
    rewrite Hc, Hs, Hrun. unfold on_error. by rewrite Hcls.
Qed.

(** X14. The engine is behind the validation.  When the parser raises, or a
    field is missing from the parsed event, what the handler returns and the
    world it leaves do not depend on the engine: any two engines give the
    same. *)
Theorem rejected_request_never_reaches_engine engine1 engine2 event context w :
  (exists e, parse_event event = Raise e) \/
  (exists d, parse_event event = Ok d /\
             (field_missing d "client_id" \/ field_missing d "session")) ->
  handler_with engine1 event context w = handler_with engine2 event context w.
Proof.
  intros [[e Hparse] | (d & Hparse & Hmiss)].
  - by rewrite !lambda_handler_eq, Hparse.
  - by rewrite !(missing_field_response _ _ _ _ event context w d).
Qed.

(** X15. [RateLimitExceeded] is not a [LambdaError].  Being a plain subclass
    of [Exception], a [RateLimitExceeded] raised by the engine is answered
    like any unexpected failure: status 500 and the fixed body, not a status
    of its own. *)
Theorem rate_limit_exceeded_is_answered_500 engine event context w d w' text :
  parse_event event = Ok d ->
  truthy (dict_get d "client_id") = true ->
  truthy (dict_get d "session") = true ->
  engine (dict_get d "client_id") (dict_get d "session") AUTH_BP w
    = (Raise (RateLimitExceeded text), w') ->
  fst (handler_with engine event context w)
  = Ok (create_response 500 internal_error_body).
Proof.
  intros Hparse Hc Hs Hrun.
  rewrite lambda_handler_eq, Hparse; cbn zeta.
  by rewrite Hc, Hs, Hrun.
Qed.

End HandlerFurther.

Lemma accepted_request_goes_to_engine_witness :
  lambda_handler parsed pair counting_engine tt well_formed tt w_live
  = (Ok (200, VDict []), snd (counting_engine (VStr "A") (VStr "s-1") tt w_live)).
Proof.
  apply (accepted_request_goes_to_engine parsed pair tt counting_engine
           well_formed tt w_live well_formed); reflexivity.
Defined.

Lemma lambda_error_is_reported_as_raised_witness :
  lambda_handler parsed pair refusing_engine tt well_formed tt w_live
  = (Ok (429, VDict [ ("message", VStr "Rate limit exceeded");
                      ("error", VStr "LambdaError") ]), w_live).
Proof.
  destruct (lambda_error_is_reported_as_raised parsed pair tt refusing_engine
              well_formed tt w_live "LambdaError" 429 "Rate limit exceeded")
    as [_ Hengine].
  apply (Hengine well_formed w_live); reflexivity.
Defined.

Lemma unexpected_error_is_logged_once_witness :
  snd (lambda_handler unparsable pair counting_engine tt well_formed tt w_live)
  = add_log (LogError ("An unexpected error occurred: " +:+ "Expecting value")) w_live /\
  snd (lambda_handler parsed pair counting_engine tt well_formed tt w_both_fail)
  = add_log (LogError ("An unexpected error occurred: " +:+ str already_there))
      (snd (counting_engine (VStr "A") (VStr "s-1") tt w_both_fail)).
Proof.
  split.
  - destruct (unexpected_error_is_logged_once unparsable pair tt counting_engine
                well_formed tt w_live
                (OtherException "JSONDecodeError" "Expecting value") eq_refl)
      as [Hparser _].
    apply Hparser. reflexivity.
  - destruct (unexpected_error_is_logged_once parsed pair tt counting_engine
                well_formed tt w_both_fail already_there eq_refl)
      as [_ Hengine].
    apply (Hengine well_formed); reflexivity.
Defined.

Lemma rejected_request_never_reaches_engine_witness :
  lambda_handler parsed pair counting_engine tt empty_session tt w_live
  = lambda_handler parsed pair refusing_engine tt empty_session tt w_live.
Proof.
  apply (rejected_request_never_reaches_engine parsed pair tt
           counting_engine refusing_engine empty_session tt w_live).
  right. exists empty_session. split; [reflexivity | right; reflexivity].
Defined.

Lemma rate_limit_exceeded_is_answered_500_witness :
  fst (lambda_handler parsed pair exceeding_engine tt well_formed tt w_live)
  = Ok (500, internal_error_body).
Proof.
  apply (rate_limit_exceeded_is_answered_500 parsed pair tt exceeding_engine
           well_formed tt w_live well_formed w_live "Rate limit exceeded");
    reflexivity.
Defined.
